(** * SignedEthTxMiddleware (loom-js, src/middleware/signed-eth-tx-middleware.ts)

    A shallow embedding of the middleware that signs a serialized NonceTx
    with an Ethereum signer and wraps it into a SignedTx, followed by the
    properties of [getHashedValues] and [Handle].

    The middleware is a client of several modules that it only calls:
    the protobuf classes of [../proto/loom_pb], [../address],
    [../crypto-utils], [../solidity-helpers] and the [ethers] package.
    They are the fields of the interface [Externals]; the [ethers.Signer]
    held by the instance is the interface [Signer].  Every theorem holds
    for all implementations of both. *)

From Stdlib Require Import List String Ascii Strings.Byte NArith Bool Arith Lia.
From Stdlib Require Import DecimalString DecimalN.
From ExtLib Require Import Structures.Monad.
Import ListNotations.
Import MonadNotation.
Local Open Scope monad_scope.
Local Open Scope string_scope.
Local Open Scope list_scope.

Set Implicit Arguments.

(** ** Data *)

(** A [Uint8Array]. *)
Definition bytes : Type := list byte.

(** The outcome of a call that may throw (or of a promise that may reject):
    [inl e] is the thrown value, [inr a] the returned one. *)
Definition result (E A : Type) : Type := (E + A)%type.

#[export] Instance Monad_result (E : Type) : Monad (result E) :=
  {| ret := fun _ a => inr a;
     bind := fun _ _ c k => match c with inl e => inl e | inr a => k a end |}.

(** One entry of the array handed to [soliditySha3]: [{ type, value }].
    [value] is [None] when the JavaScript value is [undefined], which is
    what [this.fromAddress] holds before the first fetch. *)
Record hashValue : Type := HashValue { type : string; value : option string }.

(** The protobuf message [SignedTx], by the four fields the middleware sets.
    A field that was never set reads as its protobuf default (no bytes, the
    empty string). *)
Record SignedTx : Type := mkSignedTx {
  inner : bytes;
  signature : bytes;
  publicKey : bytes;
  chainName : string
}.

(** [new SignedTx()] *)
Definition SignedTx_new : SignedTx :=
  {| inner := []; signature := []; publicKey := []; chainName := "" |}.

Definition setInner (v : bytes) (m : SignedTx) : SignedTx :=
  {| inner := v; signature := signature m; publicKey := publicKey m;
     chainName := chainName m |}.

Definition setSignature (v : bytes) (m : SignedTx) : SignedTx :=
  {| inner := inner m; signature := v; publicKey := publicKey m;
     chainName := chainName m |}.

Definition setPublicKey (v : bytes) (m : SignedTx) : SignedTx :=
  {| inner := inner m; signature := signature m; publicKey := v;
     chainName := chainName m |}.

Definition setChainName (v : string) (m : SignedTx) : SignedTx :=
  {| inner := inner m; signature := signature m; publicKey := publicKey m;
     chainName := v |}.

(** *** JavaScript numbers

    [getSequence()] returns the uint64 counter as a JavaScript number, that
    is, as a double: an integer of more than 53 significant bits is rounded
    to the nearest double, ties to the even mantissa. *)
Definition toDouble (n : N) : N :=
  (if n <? 2 ^ 53 then n
   else
     let sh := N.log2 n - 52 in
     let q := N.shiftr n sh in
     let r := n - N.shiftl q sh in
     let half := 2 ^ (sh - 1) in
     let q' := if (half <? r) || ((r =? half) && N.odd q) then q + 1 else q in
     N.shiftl q' sh)%N.

(** The plain decimal digits of an integer. *)
Definition digits (n : N) : string := NilEmpty.string_of_uint (N.to_uint n).

(** The integer that [toString] prints for the double [d]: among the
    integers that are read back as [d], one with the fewest significant
    digits, that is, a multiple of the largest power of ten [10^j] that has
    one; of two such multiples the nearer to [d], and the one with the even
    last digit when they are as near. *)
Fixpoint shortest (d : N) (j : nat) : N :=
  (let p := 10 ^ N.of_nat j in
   let below := (d / p) * p in
   let above := below + p in
   match toDouble below =? d, toDouble above =? d with
   | true, true =>
       if d - below <? above - d then below
       else if above - d <? d - below then above
       else if N.even (below / p) then below else above
   | true, false => below
   | false, true => above
   | false, false =>
       match j with
       | O => d
       | S j' => shortest d j'
       end
   end)%N.

Fixpoint stripZeros (s : string) : string :=
  match s with
  | EmptyString => EmptyString
  | String c r =>
      match stripZeros r with
      | EmptyString => if Ascii.eqb c "0" then EmptyString else String c EmptyString
      | r' => String c r'
      end
  end.

(** The form [d.ddde+x] that [toString] uses from 1e21 up. *)
Definition exponential (v : N) : string :=
  let ds := digits v in
  let e := digits (N.of_nat (String.length ds - 1)) in
  match stripZeros ds with
  | EmptyString => "0"
  | String c EmptyString => String c ("e+" ++ e)%string
  | String c r => String c ("." ++ r ++ "e+" ++ e)%string
  end.

(** [x.toString()] for the number [x] that holds the counter [n] (line 39):
    the digits of the shortest integer that is read back as the same
    double, in plain form below 1e21 and in exponential form from there up.
    Below 2^53 these are the digits of [n] itself
    ([Number_toString_exact]); 2^53 + 1 prints as 9007199254740992 and 2^63
    as 9223372036854776000. *)
Definition Number_toString (n : N) : string :=
  (let d := toDouble n in
   if 2 ^ 1024 <=? d then "Infinity"
   else
     let v := shortest d (N.to_nat (N.log2 d)) in
     if v <? 10 ^ 21 then digits v else exponential v)%N.

(** [sig.slice(1)] *)
Definition slice1 (b : bytes) : bytes := skipn 1 b.

(** ** The modules the middleware calls *)

Class Externals (E : Type) : Type := {
  (* ../proto/loom_pb *)
  NonceTx : Type;
  NonceTx_deserializeBinary : bytes -> result E NonceTx;
  NonceTx_getInner : NonceTx -> bytes;
  (* the uint64 counter of the message; JavaScript sees it as a number *)
  NonceTx_getSequence : NonceTx -> N;
  Transaction : Type;
  Transaction_deserializeBinary : bytes -> result E Transaction;
  Transaction_getData : Transaction -> bytes;
  MessageTx : Type;
  MessageTx_deserializeBinary : bytes -> result E MessageTx;
  PBAddress : Type;
  (* [getTo()] is [undefined] when the message carries no address *)
  MessageTx_getTo : MessageTx -> option PBAddress;
  SignedTx_serializeBinary : SignedTx -> bytes;
  (* ../address: [Address.UnmarshalPB(pb)] and [addr.local.toString()];
     the non-null assertion [getTo()!] is erased at run time, so
     [UnmarshalPB] receives [undefined] as it is *)
  Address : Type;
  Address_UnmarshalPB : option PBAddress -> result E Address;
  Address_local_toString : Address -> string;
  (* ../crypto-utils *)
  bytesToHex : bytes -> string;
  hexToBytes : string -> bytes;
  (* ../solidity-helpers *)
  soliditySha3 : list hashValue -> result E string;
  (* ethers.utils *)
  arrayify : string -> result E bytes;
  hashMessage : bytes -> string;
  recoverPublicKey : bytes -> string -> result E string
}.

(** The signer of the instance, with a state [W] of its own (a wallet, a
    remote service, a test double that counts its calls).
    [getAddress] is [signer.getAddress()], [signAsync] is
    [new EthersSigner(signer).signAsync(msg)]; both are awaited. *)
Class Signer (E W : Type) : Type := {
  getAddress : W -> result E string * W;
  signAsync : string -> W -> result E bytes * W
}.

(** ** The instance and the calls it makes *)

Record SignedEthTxMiddleware : Type := mkMiddleware {
  fromAddress : option string;
  applyEthChainName : bool
}.

(** [constructor(signer, applyEthChainName = false)]: [fromAddress] starts
    [undefined]. *)
Definition constructor (applyEthChainName : bool) : SignedEthTxMiddleware :=
  {| fromAddress := None; applyEthChainName := applyEthChainName |}.

(** JavaScript truthiness of a value that is a string or [undefined]. *)
Definition truthy (v : option string) : bool :=
  match v with
  | None => false
  | Some s => negb (String.eqb s "")
  end.

(** The calls to the signing side that an execution makes, in order, with
    their arguments. *)
Inductive call : Type :=
| CallGetAddress
| CallSignAsync (msg : string)
| CallRecoverPublicKey (digest : bytes) (sig : string).

Record state (W : Type) : Type := mkState {
  this : SignedEthTxMiddleware;
  world : W;
  calls : list call
}.

(** A computation that reads and writes the instance, calls the signer,
    and may throw.  What was written before a throw stays written. *)
Definition M (E W A : Type) : Type := state W -> result E A * state W.

#[export] Instance Monad_M (E W : Type) : Monad (M E W) :=
  {| ret := fun _ a s => (inr a, s);
     bind := fun _ _ c k s =>
       match c s with
       | (inl e, s') => (inl e, s')
       | (inr a, s') => k a s'
       end |}.

Section Middleware.

Context {E W : Type} {Ext : Externals E} {Sg : Signer E W}.

(** A call that throws or returns without touching the state. *)
Definition lift {A : Type} (r : result E A) : M E W A := fun s => (r, s).

Definition get_this : M E W SignedEthTxMiddleware := fun s => (inr (this s), s).

Definition set_fromAddress (a : string) : M E W unit :=
  fun s => (inr tt,
            {| this := {| fromAddress := Some a;
                          applyEthChainName := applyEthChainName (this s) |};
               world := world s; calls := calls s |}).

Definition record (c : call) : M E W unit :=
  fun s => (inr tt, {| this := this s; world := world s; calls := calls s ++ [c] |}).

Definition on_world {A : Type} (f : W -> result E A * W) : M E W A :=
  fun s => let (r, w) := f (world s) in
           (r, {| this := this s; world := w; calls := calls s |}).

Definition call_getAddress : M E W string :=
  record CallGetAddress ;; on_world getAddress.

Definition call_signAsync (msg : string) : M E W bytes :=
  record (CallSignAsync msg) ;; on_world (signAsync msg).

Definition call_recoverPublicKey (digest : bytes) (sig : string) : M E W string :=
  record (CallRecoverPublicKey digest sig) ;; lift (recoverPublicKey digest sig).

(** ** getHashedValues (lines 31-68) *)

(** Lines 42-59: the array [hashValues]. *)
Definition hashValues (from : option string) (toAddress sequence : string)
                      (txData : bytes) : list hashValue :=
  [ {| type := "address"; value := from |};
    {| type := "address"; value := Some toAddress |};
    {| type := "uint64";  value := Some sequence |};
    {| type := "bytes";   value := Some (bytesToHex txData) |} ].

Definition getHashedValues (self : SignedEthTxMiddleware) (txData : bytes)
  : result E string :=
  nonce <- NonceTx_deserializeBinary txData ;;
  transaction <- Transaction_deserializeBinary (NonceTx_getInner nonce) ;;
  message <- MessageTx_deserializeBinary (Transaction_getData transaction) ;;
  addr <- Address_UnmarshalPB (MessageTx_getTo message) ;;
  let toAddress := Address_local_toString addr in
  let sequence := Number_toString (NonceTx_getSequence nonce) in
  soliditySha3 (hashValues (fromAddress self) toAddress sequence txData).

(** ** Handle (lines 70-103) *)

(** Lines 71-74. *)
Definition fetchFromAddress : M E W unit :=
  self <- get_this ;;
  if negb (truthy (fromAddress self))
  then a <- call_getAddress ;; set_fromAddress a
  else ret tt.

(** The [log] calls only print and are left out; the arguments of
    [recoverPublicKey] are evaluated from left to right, as JavaScript does. *)
Definition Handle (txData : bytes) : M E W bytes :=
  fetchFromAddress ;;
  self <- get_this ;;
  hash <- lift (getHashedValues self txData) ;;
  sig <- call_signAsync hash ;;
  hashBytes <- lift (arrayify hash) ;;
  digest <- lift (arrayify (hashMessage hashBytes)) ;;
  publicKey <- call_recoverPublicKey digest ("0x" ++ bytesToHex (slice1 sig))%string ;;
  let signedTx := SignedTx_new in
  let signedTx := setInner txData signedTx in
  let signedTx := setSignature sig signedTx in
  let signedTx := setPublicKey (hexToBytes publicKey) signedTx in
  let signedTx :=
    if applyEthChainName self then setChainName "eth" signedTx else signedTx in
  ret (SignedTx_serializeBinary signedTx).

End Middleware.

(** ** Sequential calls on one instance *)

Section Runs.

Context {E W : Type} {Ext : Externals E} {Sg : Signer E W}.

(** The caller awaits each [Handle] before starting the next one. *)
Fixpoint sequentialCalls (txs : list bytes) (s : state W)
  : list (result E bytes) * state W :=
  match txs with
  | [] => ([], s)
  | txData :: rest =>
      let (r, s1) := Handle txData s in
      let (rs, s2) := sequentialCalls rest s1 in
      (r :: rs, s2)
  end.

Definition is_getAddress (c : call) : bool :=
  match c with CallGetAddress => true | _ => false end.

(** How many times [signer.getAddress()] was invoked. *)
Definition getAddress_count (cs : list call) : nat :=
  List.length (filter is_getAddress cs).

(** A new instance in front of a signer in state [w]. *)
Definition fresh (applyEthChainName : bool) (w : W) : state W :=
  {| this := constructor applyEthChainName; world := w; calls := [] |}.

(** The steps of [getHashedValues] that come before the hash (lines 33-39):
    the three decoders and the destination address. *)
Definition decodeFields (txData : bytes) : result E (string * string) :=
  nonce <- NonceTx_deserializeBinary txData ;;
  transaction <- Transaction_deserializeBinary (NonceTx_getInner nonce) ;;
  message <- MessageTx_deserializeBinary (Transaction_getData transaction) ;;
  addr <- Address_UnmarshalPB (MessageTx_getTo message) ;;
  ret (Address_local_toString addr, Number_toString (NonceTx_getSequence nonce)).

(** Lines 93-100. *)
Definition buildSignedTx (self : SignedEthTxMiddleware) (txData sig : bytes)
                         (publicKey : string) : SignedTx :=
  {| inner := txData; signature := sig; publicKey := hexToBytes publicKey;
     chainName := if applyEthChainName self then "eth" else "" |}.

(** The state in which a call ends when it got as far as [s1] after the
    address guard and then made the calls [cs], leaving the signer in [w]. *)
Definition after (s1 : state W) (cs : list call) (w : W) : state W :=
  {| this := this s1; world := w; calls := calls s1 ++ cs |}.

(** How a call can fail once the sender address is in place, after the
    taxonomy of the specification: in decoding, in signing, in public key
    recovery.  The indices are the error, the calls made to the signing side
    up to and including the failing one, and the signer's final state. *)
Inductive failure (txData : bytes) (s1 : state W) (e : E)
  : list call -> W -> Prop :=
| DecodeError :
    decodeFields txData = inl e ->
    failure txData s1 e [] (world s1)
| SigningError hash w :
    getHashedValues (this s1) txData = inr hash ->
    signAsync hash (world s1) = (inl e, w) ->
    failure txData s1 e [CallSignAsync hash] w
| RecoveryError hash sig w hashBytes digest :
    getHashedValues (this s1) txData = inr hash ->
    signAsync hash (world s1) = (inr sig, w) ->
    arrayify hash = inr hashBytes ->
    arrayify (hashMessage hashBytes) = inr digest ->
    recoverPublicKey digest ("0x" ++ bytesToHex (slice1 sig))%string = inl e ->
    failure txData s1 e
      [CallSignAsync hash;
       CallRecoverPublicKey digest ("0x" ++ bytesToHex (slice1 sig))%string] w.

(** Lines 76-102 as they run from the state [s1] that the address guard
    leaves: each step either throws, which ends the call, or hands its
    value to the next one. *)
Definition signAndWrap (txData : bytes) (s1 : state W)
  : result E bytes * state W :=
  match getHashedValues (this s1) txData with
  | inl e => (inl e, s1)
  | inr hash =>
      match signAsync hash (world s1) with
      | (inl e, w) => (inl e, after s1 [CallSignAsync hash] w)
      | (inr sig, w) =>
          match arrayify hash with
          | inl e => (inl e, after s1 [CallSignAsync hash] w)
          | inr hashBytes =>
              match arrayify (hashMessage hashBytes) with
              | inl e => (inl e, after s1 [CallSignAsync hash] w)
              | inr digest =>
                  let stripped := ("0x" ++ bytesToHex (slice1 sig))%string in
                  let cs := [CallSignAsync hash;
                             CallRecoverPublicKey digest stripped] in
                  match recoverPublicKey digest stripped with
                  | inl e => (inl e, after s1 cs w)
                  | inr publicKey =>
                      (inr (SignedTx_serializeBinary
                              (buildSignedTx (this s1) txData sig publicKey)),
                       after s1 cs w)
                  end
              end
          end
      end
  end.

(** The state that the address guard leaves when it fetches [a]. *)
Definition fetched (s : state W) (a : string) (w : W) : state W :=
  {| this := {| fromAddress := Some a;
                applyEthChainName := applyEthChainName (this s) |};
     world := w; calls := calls s ++ [CallGetAddress] |}.

(** The statements that the code does not meet as they are worded: the
    "uint64" entry of the hash input is the sequence counter in decimal
    digits; a failed decode leaves the signer uncalled; the address is fetched at most
    once over any run of calls; an address fetched in a call that fails is
    never fetched again. *)
Definition hash_input_has_exact_sequence : Prop :=
  forall (self : SignedEthTxMiddleware) (txData : bytes) nonce transaction
         message addr,
    NonceTx_deserializeBinary txData = inr nonce ->
    Transaction_deserializeBinary (NonceTx_getInner nonce) = inr transaction ->
    MessageTx_deserializeBinary (Transaction_getData transaction) = inr message ->
    Address_UnmarshalPB (MessageTx_getTo message) = inr addr ->
    getHashedValues self txData =
    soliditySha3
      [ HashValue "address" (fromAddress self);
        HashValue "address" (Some (Address_local_toString addr));
        HashValue "uint64"
          (Some (NilEmpty.string_of_uint (N.to_uint (NonceTx_getSequence nonce))));
        HashValue "bytes" (Some (bytesToHex txData)) ].

Definition decode_failure_without_signer_call : Prop :=
  forall (txData : bytes) (s : state W) (e : E),
    decodeFields txData = inl e ->
    fst (Handle txData s) = inl e /\
    calls (snd (Handle txData s)) = calls s.

Definition address_fetched_at_most_once : Prop :=
  forall (txs : list bytes) (b : bool) (w : W),
    txs <> [] ->
    getAddress_count (calls (snd (sequentialCalls txs (fresh b w)))) <= 1.

Definition fetched_address_never_fetched_again : Prop :=
  forall (txData : bytes) (txs : list bytes) (s : state W) (a : string) (w : W),
    truthy (fromAddress (this s)) = false ->
    getAddress (world s) = (inr a, w) ->
    let s' := snd (Handle txData s) in
    fromAddress (this s') = Some a /\
    getAddress_count (calls (snd (sequentialCalls txs s')))
    = getAddress_count (calls s').

(** The same instance with the constructor flag set to [b]. *)
Definition with_applyEthChainName (b : bool) (s : state W) : state W :=
  {| this := {| fromAddress := fromAddress (this s); applyEthChainName := b |};
     world := world s; calls := calls s |}.

(** The calls that an execution from [s] to [s'] added. *)
Definition newCalls (s s' : state W) : list call :=
  skipn (List.length (calls s)) (calls s').

(** What the steps after the address guard can add: nothing, a request for
    a signature, or that request followed by one public key recovery. *)
Definition signing_calls (cs : list call) : Prop :=
  cs = [] \/
  (exists hash, cs = [CallSignAsync hash]) \/
  (exists hash digest stripped,
     cs = [CallSignAsync hash; CallRecoverPublicKey digest stripped]).

(** The callee whose error ends a call that got past the address guard in
    state [s1]: one of the decoders, [soliditySha3], [signAsync], one of the
    two [arrayify] conversions, [recoverPublicKey]. *)
Inductive step_thrown (txData : bytes) (s1 : state W) (e : E) : Prop :=
| ByDecoder :
    decodeFields txData = inl e ->
    step_thrown txData s1 e
| BySoliditySha3 toAddress sequence :
    decodeFields txData = inr (toAddress, sequence) ->
    soliditySha3 (hashValues (fromAddress (this s1)) toAddress sequence txData)
    = inl e ->
    step_thrown txData s1 e
| BySignAsync hash w :
    getHashedValues (this s1) txData = inr hash ->
    signAsync hash (world s1) = (inl e, w) ->
    step_thrown txData s1 e
| ByArrayifyHash hash sig w :
    getHashedValues (this s1) txData = inr hash ->
    signAsync hash (world s1) = (inr sig, w) ->
    arrayify hash = inl e ->
    step_thrown txData s1 e
| ByArrayifyMessage hash sig w hashBytes :
    getHashedValues (this s1) txData = inr hash ->
    signAsync hash (world s1) = (inr sig, w) ->
    arrayify hash = inr hashBytes ->
    arrayify (hashMessage hashBytes) = inl e ->
    step_thrown txData s1 e
| ByRecoverPublicKey hash sig w hashBytes digest :
    getHashedValues (this s1) txData = inr hash ->
    signAsync hash (world s1) = (inr sig, w) ->
    arrayify hash = inr hashBytes ->
    arrayify (hashMessage hashBytes) = inr digest ->
    recoverPublicKey digest ("0x" ++ bytesToHex (slice1 sig))%string = inl e ->
    step_thrown txData s1 e.

(** The callee whose error ends a call made in state [s]: [getAddress] when
    the guard has to fetch, or a later step. *)
Inductive thrown (txData : bytes) (s : state W) (e : E) : Prop :=
| ByGetAddress w :
    truthy (fromAddress (this s)) = false ->
    getAddress (world s) = (inl e, w) ->
    thrown txData s e
| ByStep s1 :
    fetchFromAddress s = (inr tt, s1) ->
    step_thrown txData s1 e ->
    thrown txData s e.

End Runs.

(** ** Test doubles

    Small implementations of the two interfaces, used to run [Handle] on
    concrete inputs.  The wire format is a toy one: a sequence byte followed
    by the twenty bytes of the destination address; the "hash" is the packed
    input itself.  The signers count their [getAddress] calls in their own
    state, as a mock that records call counts does. *)

Module TestDoubles.

Definition hexDigit (n : N) : ascii :=
  nth (N.to_nat n)
      ["0"; "1"; "2"; "3"; "4"; "5"; "6"; "7";
       "8"; "9"; "A"; "B"; "C"; "D"; "E"; "F"]%char "0"%char.

Fixpoint hex (b : bytes) : string :=
  match b with
  | [] => ""
  | x :: r =>
      let n := Byte.to_N x in
      String (hexDigit (n / 16)%N) (String (hexDigit (n mod 16)%N) (hex r))
  end.

Definition hexValue (c : ascii) : option N :=
  let n := N_of_ascii c in
  (if andb (48 <=? n) (n <=? 57) then Some (n - 48)
   else if andb (65 <=? n) (n <=? 70) then Some (n - 55)
   else if andb (97 <=? n) (n <=? 102) then Some (n - 87)
   else None)%N.

Fixpoint unhex (s : string) : bytes :=
  match s with
  | String a (String b r) =>
      match hexValue a, hexValue b with
      | Some x, Some y =>
          match Byte.of_N (16 * x + y)%N with
          | Some v => v :: unhex r
          | None => []
          end
      | _, _ => []
      end
  | _ => []
  end.

Definition strip0x (s : string) : string :=
  match s with
  | String "0" (String "x" r) => r
  | _ => s
  end.

Fixpoint pack (vs : list hashValue) : option string :=
  match vs with
  | [] => Some ""
  | v :: r =>
      match value v, pack r with
      | Some x, Some y => Some (type v ++ ":" ++ x ++ ";" ++ y)%string
      | _, _ => None
      end
  end.

Definition typeError : string :=
  "TypeError: Cannot read property 'getChainId' of undefined".

Definition externals : Externals string :=
  {| NonceTx := (bytes * N)%type;
     NonceTx_deserializeBinary := fun b =>
       match b with
       | [] => inr ([], 0%N)
       | x :: r => inr (r, Byte.to_N x)
       end;
     NonceTx_getInner := fst;
     NonceTx_getSequence := snd;
     Transaction := bytes;
     Transaction_deserializeBinary := fun b => inr b;
     Transaction_getData := fun t => t;
     MessageTx := option bytes;
     MessageTx_deserializeBinary := fun b =>
       match b with
       | [] => inr None
       | _ => inr (Some b)
       end;
     PBAddress := bytes;
     MessageTx_getTo := fun m => m;
     SignedTx_serializeBinary := fun t =>
       inner t ++ signature t ++ publicKey t ++ list_byte_of_string (chainName t);
     Address := bytes;
     Address_UnmarshalPB := fun pb =>
       match pb with
       | None => inl typeError
       | Some b =>
           if Nat.eqb (List.length b) 20 then inr b
           else inl "Invalid local address, expected 20 bytes"
       end;
     Address_local_toString := fun a => ("0x" ++ hex a)%string;
     bytesToHex := hex;
     hexToBytes := fun s => unhex (strip0x s);
     soliditySha3 := fun vs =>
       match pack vs with
       | Some p => inr ("0x" ++ hex (list_byte_of_string p))%string
       | None => inl "soliditySha3: undefined value"
       end;
     arrayify := fun s =>
       match s with
       | String "0" (String "x" r) => inr (unhex r)
       | _ => inl "invalid arrayify value"
       end;
     hashMessage := fun b =>
       String.append "0x" (hex (list_byte_of_string "Ethereum Signed Message:" ++ b));
     recoverPublicKey := fun _ sg =>
       if Nat.eqb (String.length sg) 130 then inr "0x04C0FFEE"
       else inl "invalid signature length" |}.

(** The same modules with a counter of eight bytes, big-endian, in front of
    the address. *)
Definition be64 (b : bytes) : N :=
  fold_left (fun acc x => (acc * 256 + Byte.to_N x)%N) b 0%N.

Definition externals64 : Externals string :=
  {| NonceTx := (bytes * N)%type;
     NonceTx_deserializeBinary := fun b => inr (skipn 8 b, be64 (firstn 8 b));
     NonceTx_getInner := fst;
     NonceTx_getSequence := snd;
     Transaction := @Transaction _ externals;
     Transaction_deserializeBinary := @Transaction_deserializeBinary _ externals;
     Transaction_getData := @Transaction_getData _ externals;
     MessageTx := @MessageTx _ externals;
     MessageTx_deserializeBinary := @MessageTx_deserializeBinary _ externals;
     PBAddress := @PBAddress _ externals;
     MessageTx_getTo := @MessageTx_getTo _ externals;
     SignedTx_serializeBinary := @SignedTx_serializeBinary _ externals;
     Address := @Address _ externals;
     Address_UnmarshalPB := @Address_UnmarshalPB _ externals;
     Address_local_toString := @Address_local_toString _ externals;
     bytesToHex := @bytesToHex _ externals;
     hexToBytes := @hexToBytes _ externals;
     soliditySha3 := @soliditySha3 _ externals;
     arrayify := @arrayify _ externals;
     hashMessage := @hashMessage _ externals;
     recoverPublicKey := @recoverPublicKey _ externals |}.

(** Sequence 2^63 to the address B2...B2. *)
Definition envelope63 : bytes := x80 :: repeat x00 7 ++ repeat xb2 20.

Definition senderAddress : string := "0x00000000000000000000000000000000000000A1".

Definition sig65 : bytes := x1b :: repeat x11 64.

(** A signer that works. *)
Definition wallet : Signer string nat :=
  {| getAddress := fun n => (inr senderAddress, S n);
     signAsync := fun _ n => (inr sig65, n) |}.

(** A signer whose [getAddress] rejects. *)
Definition unreachable : Signer string nat :=
  {| getAddress := fun n => (inl "getAddress: network error", S n);
     signAsync := fun _ n => (inr sig65, n) |}.

(** A signer whose [getAddress] resolves to the empty string. *)
Definition blank : Signer string nat :=
  {| getAddress := fun n => (inr "", S n);
     signAsync := fun _ n => (inr sig65, n) |}.

(** A signer that refuses to sign. *)
Definition refusing : Signer string nat :=
  {| getAddress := fun n => (inr senderAddress, S n);
     signAsync := fun _ n => (inl "user denied message signature", n) |}.

(** A signer that returns a signature of the wrong length. *)
Definition garbled : Signer string nat :=
  {| getAddress := fun n => (inr senderAddress, S n);
     signAsync := fun _ n => (inr [x1b; x11], n) |}.

(** Sequence 7 to the address B2...B2. *)
Definition envelope : bytes := x07 :: repeat xb2 20.

(** The same envelope cut after five bytes. *)
Definition truncated : bytes := firstn 5 envelope.

End TestDoubles.

(** ** Properties *)

Unset Implicit Arguments.

Section Properties.

Context {E W : Type} {Ext : Externals E} {Sg : Signer E W}.
Implicit Types (s : state W) (txData : bytes) (txs : list bytes).

Lemma bind_run {A B : Type} (c : M E W A) (k : A -> M E W B) s :
  bind c k s =
  match c s with
  | (inl e, s') => (inl e, s')
  | (inr a, s') => k a s'
  end.
Proof. reflexivity. Qed.

(** *** The address guard *)

Lemma fetchFromAddress_cached s :
  truthy (fromAddress (this s)) = true ->
  fetchFromAddress s = (inr tt, s).
Proof.
  intros H. unfold fetchFromAddress. cbn. rewrite H. reflexivity.
Qed.

Lemma fetchFromAddress_fetch s :
  truthy (fromAddress (this s)) = false ->
  fetchFromAddress s =
  match getAddress (world s) with
  | (inl e, w) => (inl e, after s [CallGetAddress] w)
  | (inr a, w) => (inr tt, fetched s a w)
  end.
Proof.
  intros H. unfold fetchFromAddress. cbn. rewrite H. cbn.
  unfold on_world. cbn. destruct (getAddress (world s)) as [[e | a] w]; reflexivity.
Qed.

Lemma truthy_Some a : a <> "" -> truthy (Some a) = true.
Proof.
  intros H. cbn. destruct (String.eqb_spec a ""); [contradiction | reflexivity].
Qed.

(** *** Handle, one step at a time *)

Lemma Handle_eq txData s :
  Handle txData s =
  match fetchFromAddress s with
  | (inl e, s1) => (inl e, s1)
  | (inr _, s1) => signAndWrap txData s1
  end.
Proof.
  unfold Handle. rewrite bind_run.
  destruct (fetchFromAddress s) as [[e | []] s1]; [reflexivity|].
  unfold signAndWrap, call_signAsync, call_recoverPublicKey, record, lift,
    on_world, get_this, after.
  cbn -[getHashedValues slice1 String.append].
  destruct (getHashedValues (this s1) txData) as [e | hash]; [reflexivity|].
  destruct (signAsync hash (world s1)) as [[e | sig] w]; [reflexivity|].
  destruct (arrayify hash) as [e | hashBytes]; [reflexivity|].
  destruct (arrayify (hashMessage hashBytes)) as [e | digest]; [reflexivity|].
  cbn. rewrite <- app_assoc. cbn.
  destruct (recoverPublicKey digest _) as [e | pk]; [reflexivity|].
  unfold buildSignedTx, setChainName, setPublicKey, setSignature, setInner. cbn.
  destruct (applyEthChainName (this s1)); reflexivity.
Qed.

Lemma Handle_cached txData s :
  truthy (fromAddress (this s)) = true ->
  Handle txData s = signAndWrap txData s.
Proof.
  intros H. rewrite Handle_eq, (fetchFromAddress_cached s H). reflexivity.
Qed.

Lemma Handle_fetched txData s a w :
  truthy (fromAddress (this s)) = false ->
  getAddress (world s) = (inr a, w) ->
  Handle txData s = signAndWrap txData (fetched s a w).
Proof.
  intros H G. rewrite Handle_eq, (fetchFromAddress_fetch s H), G. reflexivity.
Qed.

Lemma Handle_fetch_rejected txData s e w :
  truthy (fromAddress (this s)) = false ->
  getAddress (world s) = (inl e, w) ->
  Handle txData s = (inl e, after s [CallGetAddress] w).
Proof.
  intros H G. rewrite Handle_eq, (fetchFromAddress_fetch s H), G. reflexivity.
Qed.

(** *** getHashedValues *)

Lemma getHashedValues_decodeFields (self : SignedEthTxMiddleware) txData :
  getHashedValues self txData =
  match decodeFields txData with
  | inl e => inl e
  | inr (toAddress, sequence) =>
      soliditySha3 (hashValues (fromAddress self) toAddress sequence txData)
  end.
Proof.
  unfold getHashedValues, decodeFields. cbn.
  destruct (NonceTx_deserializeBinary txData) as [e | nonce]; [reflexivity|].
  destruct (Transaction_deserializeBinary _) as [e | transaction]; [reflexivity|].
  destruct (MessageTx_deserializeBinary _) as [e | message]; [reflexivity|].
  destruct (Address_UnmarshalPB _) as [e | addr]; reflexivity.
Qed.

Lemma getHashedValues_decode_error (self : SignedEthTxMiddleware) txData e :
  decodeFields txData = inl e -> getHashedValues self txData = inl e.
Proof.
  intros H. rewrite getHashedValues_decodeFields, H. reflexivity.
Qed.

Lemma getHashedValues_flag (self : SignedEthTxMiddleware) (b : bool) txData :
  getHashedValues {| fromAddress := fromAddress self; applyEthChainName := b |} txData
  = getHashedValues self txData.
Proof. reflexivity. Qed.

(** *** What the steps after the guard leave behind *)

Ltac steps :=
  repeat match goal with
         | |- context [match ?x with inl _ => _ | inr _ => _ end] =>
             destruct x as [? | ?] eqn:?
         | |- context [let (_, _) := ?x in _] => destruct x as [[? | ?] ?] eqn:?
         | |- context [match ?x with (_, _) => _ end] =>
             destruct x as [[? | ?] ?] eqn:?
         end.

Lemma getAddress_count_app (xs ys : list call) :
  getAddress_count (xs ++ ys) = getAddress_count xs + getAddress_count ys.
Proof.
  unfold getAddress_count. rewrite filter_app, length_app. reflexivity.
Qed.

Lemma signAndWrap_this txData s1 :
  this (snd (signAndWrap txData s1)) = this s1.
Proof. unfold signAndWrap. steps; reflexivity. Qed.

Lemma signAndWrap_getAddress_count txData s1 :
  getAddress_count (calls (snd (signAndWrap txData s1)))
  = getAddress_count (calls s1).
Proof.
  unfold signAndWrap.
  steps; cbn [snd calls after]; rewrite ?getAddress_count_app; cbn; lia.
Qed.

Lemma signAndWrap_decode_error txData s1 e :
  decodeFields txData = inl e -> signAndWrap txData s1 = (inl e, s1).
Proof.
  intros H. unfold signAndWrap.
  rewrite (getHashedValues_decode_error (this s1) txData e H). reflexivity.
Qed.

(** A call that returns went through every step. *)
Lemma signAndWrap_ok_inv txData s1 out s' :
  signAndWrap txData s1 = (inr out, s') ->
  exists hash sig w hashBytes digest pk,
    getHashedValues (this s1) txData = inr hash /\
    signAsync hash (world s1) = (inr sig, w) /\
    arrayify hash = inr hashBytes /\
    arrayify (hashMessage hashBytes) = inr digest /\
    recoverPublicKey digest ("0x" ++ bytesToHex (slice1 sig))%string = inr pk /\
    out = SignedTx_serializeBinary (buildSignedTx (this s1) txData sig pk) /\
    s' = after s1 [CallSignAsync hash;
                   CallRecoverPublicKey digest
                     ("0x" ++ bytesToHex (slice1 sig))%string] w.
Proof.
  unfold signAndWrap. intros H.
  destruct (getHashedValues (this s1) txData) as [e | hash] eqn:H1;
    [discriminate|].
  destruct (signAsync hash (world s1)) as [[e | sig] w] eqn:H2; [discriminate|].
  destruct (arrayify hash) as [e | hashBytes] eqn:H3; [discriminate|].
  destruct (arrayify (hashMessage hashBytes)) as [e | digest] eqn:H4;
    [discriminate|].
  cbv zeta in H.
  destruct (recoverPublicKey digest _) as [e | pk] eqn:H5; [discriminate|].
  injection H as <- <-. exists hash, sig, w, hashBytes, digest, pk.
  repeat split; assumption.
Qed.

Lemma signAndWrap_ok_intro txData s1 hash sig w hashBytes digest pk :
  getHashedValues (this s1) txData = inr hash ->
  signAsync hash (world s1) = (inr sig, w) ->
  arrayify hash = inr hashBytes ->
  arrayify (hashMessage hashBytes) = inr digest ->
  recoverPublicKey digest ("0x" ++ bytesToHex (slice1 sig))%string = inr pk ->
  signAndWrap txData s1 =
  (inr (SignedTx_serializeBinary (buildSignedTx (this s1) txData sig pk)),
   after s1 [CallSignAsync hash;
             CallRecoverPublicKey digest
               ("0x" ++ bytesToHex (slice1 sig))%string] w).
Proof.
  intros H1 H2 H3 H4 H5. unfold signAndWrap.
  rewrite H1, H2, H3, H4. cbv zeta. rewrite H5. reflexivity.
Qed.

Lemma Handle_ok_guard txData s out s' :
  Handle txData s = (inr out, s') ->
  exists s1, fetchFromAddress s = (inr tt, s1) /\
             signAndWrap txData s1 = (inr out, s').
Proof.
  rewrite Handle_eq.
  destruct (fetchFromAddress s) as [[e | []] s1]; [discriminate|].
  intros H. exists s1. split; [reflexivity | assumption].
Qed.

(** *** The guard and the constructor flag *)

Lemma fetchFromAddress_flag (b : bool) s s1 :
  fetchFromAddress s = (inr tt, s1) ->
  fetchFromAddress (with_applyEthChainName b s)
  = (inr tt, with_applyEthChainName b s1).
Proof.
  destruct (truthy (fromAddress (this s))) eqn:T.
  - rewrite (fetchFromAddress_cached s T). intros [= <-].
    apply fetchFromAddress_cached. exact T.
  - rewrite (fetchFromAddress_fetch s T).
    rewrite (fetchFromAddress_fetch (with_applyEthChainName b s) T). cbn.
    destruct (getAddress (world s)) as [[e | a] w]; [discriminate|].
    intros [= <-]. reflexivity.
Qed.

Lemma with_applyEthChainName_twice (b c : bool) s :
  with_applyEthChainName b (with_applyEthChainName c s)
  = with_applyEthChainName b s.
Proof. reflexivity. Qed.

Lemma fetchFromAddress_applyEthChainName s :
  applyEthChainName (this (snd (fetchFromAddress s)))
  = applyEthChainName (this s).
Proof.
  destruct (truthy (fromAddress (this s))) eqn:T.
  - rewrite (fetchFromAddress_cached s T). reflexivity.
  - rewrite (fetchFromAddress_fetch s T).
    destruct (getAddress (world s)) as [[e | a] w]; reflexivity.
Qed.

(** *** Runs of calls *)

Lemma sequentialCalls_cons txData txs s :
  snd (sequentialCalls (txData :: txs) s)
  = snd (sequentialCalls txs (snd (Handle txData s))).
Proof.
  cbn [sequentialCalls]. destruct (Handle txData s) as [r s1]. cbn [snd].
  destruct (sequentialCalls txs s1). reflexivity.
Qed.

(** Once a truthy address is cached, no call changes the instance or
    reaches [getAddress]. *)
Lemma sequentialCalls_cached txs : forall s,
  truthy (fromAddress (this s)) = true ->
  this (snd (sequentialCalls txs s)) = this s /\
  getAddress_count (calls (snd (sequentialCalls txs s)))
  = getAddress_count (calls s).
Proof.
  induction txs as [| txData txs IH]; intros s T; [split; reflexivity|].
  rewrite sequentialCalls_cons, (Handle_cached txData s T).
  pose proof (signAndWrap_this txData s) as Hthis.
  pose proof (signAndWrap_getAddress_count txData s) as Hcount.
  destruct (IH (snd (signAndWrap txData s))) as [IH1 IH2].
  - rewrite Hthis. exact T.
  - split; congruence.
Qed.

(** *** The hash input *)

(** Integers below 2^53 are doubles; from 2^53 up a double stays there. *)
Lemma toDouble_exact (n : N) : (n < 2 ^ 53)%N -> toDouble n = n.
Proof.
  intros H. unfold toDouble. rewrite (proj2 (N.ltb_lt _ _) H). reflexivity.
Qed.

Lemma toDouble_large (n : N) : (2 ^ 53 <= n)%N -> (2 ^ 53 <= toDouble n)%N.
Proof.
  intros H. unfold toDouble. rewrite (proj2 (N.ltb_ge _ _) H). cbv zeta.
  assert (Hlog : (53 <= N.log2 n)%N).
  { rewrite <- (N.log2_pow2 53) by apply N.le_0_l. apply N.log2_le_mono. exact H. }
  set (sh := (N.log2 n - 52)%N).
  assert (Hsh : (1 <= sh)%N) by (unfold sh; lia).
  rewrite N.shiftr_div_pow2.
  set (q := (n / 2 ^ sh)%N).
  assert (Hpos : (0 < n)%N).
  { apply N.lt_le_trans with (2 ^ 53)%N; [reflexivity | exact H]. }
  destruct (N.log2_spec n Hpos) as [Hlo _].
  assert (Hsplit : N.log2 n = (52 + sh)%N) by (unfold sh; lia).
  rewrite Hsplit, N.pow_add_r in Hlo.
  assert (Hp : (2 ^ sh <> 0)%N) by (apply N.pow_nonzero; discriminate).
  assert (Hq : (2 ^ 52 <= q)%N).
  { unfold q. apply N.div_le_lower_bound; [exact Hp|]. rewrite N.mul_comm. exact Hlo. }
  assert (H2 : (2 ^ 1 <= 2 ^ sh)%N) by (apply N.pow_le_mono_r; [discriminate | exact Hsh]).
  assert (Hgen : forall q', (q <= q')%N -> (2 ^ 53 <= N.shiftl q' sh)%N).
  { intros q' Hq'. rewrite N.shiftl_mul_pow2.
    change (2 ^ 53)%N with (2 ^ 52 * 2 ^ 1)%N.
    apply N.mul_le_mono; [apply N.le_trans with q; assumption | exact H2]. }
  destruct (_ || _); apply Hgen; lia.
Qed.

Lemma toDouble_fixed_below (v : N) : (toDouble v < 2 ^ 53)%N -> toDouble v = v.
Proof.
  intros H. destruct (N.lt_ge_cases v (2 ^ 53)) as [L | G].
  - apply toDouble_exact. exact L.
  - pose proof (toDouble_large v G) as G'.
    apply N.lt_nge in H. contradiction.
Qed.

Lemma shortest_eq (d : N) (j : nat) :
  shortest d j =
  (let p := 10 ^ N.of_nat j in
   let below := (d / p) * p in
   let above := below + p in
   match toDouble below =? d, toDouble above =? d with
   | true, true =>
       if d - below <? above - d then below
       else if above - d <? d - below then above
       else if N.even (below / p) then below else above
   | true, false => below
   | false, true => above
   | false, false =>
       match j with
       | O => d
       | S j' => shortest d j'
       end
   end)%N.
Proof. destruct j; reflexivity. Qed.

Lemma shortest_reads_back (d : N) (j : nat) :
  toDouble d = d -> toDouble (shortest d j) = d.
Proof.
  intros Hd. induction j as [| j IH]; rewrite shortest_eq; cbv zeta;
    (destruct (toDouble _ =? d)%N eqn:B;
     [apply N.eqb_eq in B |];
     (destruct (toDouble (_ + _) =? d)%N eqn:A;
      [apply N.eqb_eq in A |]));
    repeat match goal with
           | |- context [if ?c then _ else _] => destruct c
           end;
    assumption.
Qed.

Lemma Number_toString_exact (n : N) :
  (n < 2 ^ 53)%N ->
  Number_toString n = NilEmpty.string_of_uint (N.to_uint n).
Proof.
  intros H. unfold Number_toString. rewrite (toDouble_exact n H). cbv zeta.
  assert (Hv : shortest n (N.to_nat (N.log2 n)) = n).
  { pose proof (shortest_reads_back n (N.to_nat (N.log2 n)) (toDouble_exact n H))
      as R.
    rewrite <- (toDouble_fixed_below _ (eq_ind_r (fun x => (x < 2 ^ 53)%N) H R)).
    exact R. }
  rewrite Hv.
  assert (H1 : (2 ^ 1024 <=? n)%N = false).
  { apply N.leb_gt. apply N.lt_le_trans with (2 ^ 53)%N; [exact H|].
    apply N.pow_le_mono_r; [discriminate | apply N.leb_le; reflexivity]. }
  assert (H2 : (n <? 10 ^ 21)%N = true).
  { apply N.ltb_lt. apply N.lt_le_trans with (2 ^ 53)%N; [exact H|].
    apply N.leb_le. reflexivity. }
  rewrite H1, H2. reflexivity.
Qed.

Lemma slice1_cons (v : byte) (rs : bytes) : slice1 (v :: rs) = rs.
Proof. reflexivity. Qed.

(** C1 (amended). When the three decoders and the destination address
    succeed, the value handed to [soliditySha3] is the four-element list:
    type "address" with the cached sender address, type "address" with the
    destination address text, type "uint64" with the text that [toString]
    gives for the number holding the sequence counter, type "bytes" with
    the hex text of the input bytes as received.  When the counter is below
    2^53 the "uint64" text is the counter in decimal digits. *)
Theorem getHashedValues_hash_input
    (self : SignedEthTxMiddleware) txData nonce transaction message addr :
  NonceTx_deserializeBinary txData = inr nonce ->
  Transaction_deserializeBinary (NonceTx_getInner nonce) = inr transaction ->
  MessageTx_deserializeBinary (Transaction_getData transaction) = inr message ->
  Address_UnmarshalPB (MessageTx_getTo message) = inr addr ->
  getHashedValues self txData =
  soliditySha3
    [ HashValue "address" (fromAddress self);
      HashValue "address" (Some (Address_local_toString addr));
      HashValue "uint64" (Some (Number_toString (NonceTx_getSequence nonce)));
      HashValue "bytes" (Some (bytesToHex txData)) ] /\
  ((NonceTx_getSequence nonce < 2 ^ 53)%N ->
   getHashedValues self txData =
   soliditySha3
     [ HashValue "address" (fromAddress self);
       HashValue "address" (Some (Address_local_toString addr));
       HashValue "uint64"
         (Some (NilEmpty.string_of_uint (N.to_uint (NonceTx_getSequence nonce))));
       HashValue "bytes" (Some (bytesToHex txData)) ]).
Proof.
  intros H1 H2 H3 H4.
  assert (H : getHashedValues self txData =
              soliditySha3
                (hashValues (fromAddress self) (Address_local_toString addr)
                   (Number_toString (NonceTx_getSequence nonce)) txData)).
  { unfold getHashedValues. cbn -[Number_toString].
    rewrite H1, H2, H3, H4. reflexivity. }
  split; [exact H|].
  intros Hsafe. rewrite H, (Number_toString_exact _ Hsafe). reflexivity.
Qed.

(** Exchanging the two address entries changes the hash input exactly when
    the two texts differ. *)
Lemma hashValues_swap_differs (from toAddress sequence : string) txData :
  from <> toAddress ->
  hashValues (Some from) toAddress sequence txData
  <> hashValues (Some toAddress) from sequence txData.
Proof. intros H [= Heq _]. contradiction. Qed.

(** *** The signed envelope *)

(** C2. A call that returns yields the serialization of a SignedTx whose
    [inner] field is the input, byte for byte. *)
Theorem Handle_inner_preserved txData s out s' :
  Handle txData s = (inr out, s') ->
  exists signedTx : SignedTx,
    out = SignedTx_serializeBinary signedTx /\ inner signedTx = txData.
Proof.
  intros H. destruct (Handle_ok_guard _ _ _ _ H) as (s1 & _ & H1).
  destruct (signAndWrap_ok_inv _ _ _ _ H1)
    as (hash & sig & w & hashBytes & digest & pk & _ & _ & _ & _ & _ & -> & _).
  eexists. split; reflexivity.
Qed.

(** C3. In a call that returns, [signAsync] receives the hash of
    [getHashedValues] itself; [recoverPublicKey] receives the bytes of
    [hashMessage] of that hash and the signature without its first byte;
    the SignedTx carries the whole signature and the recovered key. *)
Theorem Handle_sign_raw_recover_prefixed txData s out s' :
  Handle txData s = (inr out, s') ->
  exists s1 hash sig hashBytes digest pk signedTx,
    fetchFromAddress s = (inr tt, s1) /\
    getHashedValues (this s1) txData = inr hash /\
    fst (signAsync hash (world s1)) = inr sig /\
    arrayify hash = inr hashBytes /\
    arrayify (hashMessage hashBytes) = inr digest /\
    recoverPublicKey digest ("0x" ++ bytesToHex (slice1 sig))%string = inr pk /\
    calls s' = calls s1 ++
               [CallSignAsync hash;
                CallRecoverPublicKey digest
                  ("0x" ++ bytesToHex (slice1 sig))%string] /\
    out = SignedTx_serializeBinary signedTx /\
    signature signedTx = sig /\
    publicKey signedTx = hexToBytes pk.
Proof.
  intros H. destruct (Handle_ok_guard _ _ _ _ H) as (s1 & G & H1).
  destruct (signAndWrap_ok_inv _ _ _ _ H1)
    as (hash & sig & w & hashBytes & digest & pk
        & Hh & Hs & Ha & Hd & Hr & -> & ->).
  exists s1, hash, sig, hashBytes, digest, pk,
    (buildSignedTx (this s1) txData sig pk).
  rewrite Hs. repeat split; assumption.
Qed.

(** C6. The flag decides the chain name and nothing else: a call that
    returns with the flag at [b] returns a SignedTx whose chain name is
    "eth" when [b] holds and empty otherwise, and the same call with the
    flag reversed returns a SignedTx with the other chain name and the same
    inner bytes, signature and public key, after the same calls. *)
Theorem chain_name_gating txData s (b : bool) out s' :
  Handle txData (with_applyEthChainName b s) = (inr out, s') ->
  exists signedTx signedTx' : SignedTx,
    out = SignedTx_serializeBinary signedTx /\
    chainName signedTx = (if b then "eth" else "") /\
    Handle txData (with_applyEthChainName (negb b) s)
    = (inr (SignedTx_serializeBinary signedTx'),
       with_applyEthChainName (negb b) s') /\
    chainName signedTx' = (if b then "" else "eth") /\
    inner signedTx' = inner signedTx /\
    signature signedTx' = signature signedTx /\
    publicKey signedTx' = publicKey signedTx.
Proof.
  intros H. destruct (Handle_ok_guard _ _ _ _ H) as (s1 & G & H1).
  destruct (signAndWrap_ok_inv _ _ _ _ H1)
    as (hash & sig & w & hashBytes & digest & pk
        & Hh & Hs & Ha & Hd & Hr & -> & ->).
  pose proof (fetchFromAddress_flag (negb b) _ _ G) as G'.
  rewrite with_applyEthChainName_twice in G'.
  pose proof (fetchFromAddress_applyEthChainName (with_applyEthChainName b s))
    as Hb.
  rewrite G in Hb. cbn in Hb.
  exists (buildSignedTx (this s1) txData sig pk),
         (buildSignedTx (this (with_applyEthChainName (negb b) s1)) txData sig pk).
  split; [reflexivity|].
  split; [cbn; rewrite Hb; reflexivity|].
  split.
  - rewrite Handle_eq, G'.
    rewrite (signAndWrap_ok_intro txData
               (with_applyEthChainName (negb b) s1) _ _ _ _ _ _
               Hh Hs Ha Hd Hr).
    reflexivity.
  - cbn. destruct b; repeat split; reflexivity.
Qed.

(** *** Failures *)

(** C7. Once the sender address is in place, an error thrown by a decoder,
    by the signer or by the public key recovery is the outcome of the call
    as it is: nothing is returned, the step that failed was run once, and
    no step runs after it. *)
Theorem failure_propagates txData s s1 (e : E) (cs : list call) (w : W) :
  fetchFromAddress s = (inr tt, s1) ->
  failure txData s1 e cs w ->
  Handle txData s = (inl e, after s1 cs w).
Proof.
  intros G F. rewrite Handle_eq, G. unfold signAndWrap.
  destruct F as [D | hash w Hh Hs | hash sig w hashBytes digest Hh Hs Ha Hd Hr].
  - rewrite (getHashedValues_decode_error (this s1) txData e D).
    unfold after. rewrite app_nil_r. destruct s1; reflexivity.
  - rewrite Hh, Hs. reflexivity.
  - rewrite Hh, Hs, Ha, Hd. cbv zeta. rewrite Hr. reflexivity.
Qed.

(** C4 (amended). When the envelope does not decode, the call fails and
    returns nothing, and neither [signAsync] nor [recoverPublicKey] is
    called.  The only call that can reach the signer is the address fetch
    that opens a call on an instance without a cached address; with the
    address cached the instance and the signer are left as they were, and
    whenever the address is cached or its fetch resolves the error is the
    decoder's own. *)
Theorem decode_failure_no_signature txData s (e : E) :
  decodeFields txData = inl e ->
  exists (e' : E) (s' : state W),
    Handle txData s = (inl e', s') /\
    (calls s' = calls s \/
     truthy (fromAddress (this s)) = false /\
     calls s' = calls s ++ [CallGetAddress]) /\
    (truthy (fromAddress (this s)) = true -> e' = e /\ s' = s) /\
    (forall a w, getAddress (world s) = (inr a, w) -> e' = e).
Proof.
  intros D. destruct (truthy (fromAddress (this s))) eqn:T.
  - exists e, s. rewrite (Handle_cached txData s T).
    rewrite (signAndWrap_decode_error txData s e D). repeat split; auto.
  - destruct (getAddress (world s)) as [[e0 | a] w] eqn:G.
    + exists e0, (after s [CallGetAddress] w).
      rewrite (Handle_fetch_rejected txData s e0 w T G).
      repeat split; try discriminate. right. split; reflexivity.
    + exists e, (fetched s a w).
      rewrite (Handle_fetched txData s _ _ T G).
      rewrite (signAndWrap_decode_error txData (fetched s a w) e D).
      repeat split; try discriminate. right. split; reflexivity.
Qed.

(** *** The cached address *)

(** C5 (amended). On a new instance whose first address fetch resolves to a
    non-empty string, any run of one or more calls invokes [getAddress]
    exactly once, and it leaves the instance as constructed except for the
    cached address. *)
Theorem address_fetched_once txs (b : bool) (w w' : W) (a : string) :
  getAddress w = (inr a, w') ->
  a <> "" ->
  txs <> [] ->
  let s' := snd (sequentialCalls txs (fresh b w)) in
  getAddress_count (calls s') = 1 /\
  this s' = {| fromAddress := Some a; applyEthChainName := b |}.
Proof.
  intros G Ha Hne. destruct txs as [| txData txs]; [contradiction|].
  cbv zeta. rewrite sequentialCalls_cons.
  rewrite (Handle_fetched txData (fresh b w) a w' eq_refl G).
  set (s1 := fetched (fresh b w) a w').
  pose proof (signAndWrap_this txData s1) as Hthis.
  pose proof (signAndWrap_getAddress_count txData s1) as Hcount.
  destruct (sequentialCalls_cached txs (snd (signAndWrap txData s1))) as [I1 I2].
  - rewrite Hthis. apply truthy_Some. exact Ha.
  - rewrite I1, I2, Hthis, Hcount. split; reflexivity.
Qed.

Lemma sequentialCalls_empty_address txs : forall s,
  (forall w0, fst (getAddress w0) = inr "") ->
  truthy (fromAddress (this s)) = false ->
  getAddress_count (calls (snd (sequentialCalls txs s)))
  = getAddress_count (calls s) + List.length txs /\
  truthy (fromAddress (this (snd (sequentialCalls txs s)))) = false.
Proof.
  induction txs as [| txData txs IH]; intros s Hsg T.
  - cbn. split; [lia | exact T].
  - rewrite sequentialCalls_cons.
    destruct (getAddress (world s)) as [r w1] eqn:G.
    pose proof (Hsg (world s)) as Hr. rewrite G in Hr. cbn in Hr. subst r.
    rewrite (Handle_fetched txData s _ _ T G).
    set (s1 := fetched s "" w1).
    pose proof (signAndWrap_this txData s1) as Hthis.
    pose proof (signAndWrap_getAddress_count txData s1) as Hcount.
    destruct (IH (snd (signAndWrap txData s1)) Hsg) as [I1 I2].
    + rewrite Hthis. reflexivity.
    + split; [| exact I2]. rewrite I1, Hcount. unfold s1, fetched. cbn [calls].
      rewrite getAddress_count_app. cbn. lia.
Qed.

(** C9. With a signer whose [getAddress] resolves to the empty string, the
    guard finds the cache unpopulated at every call: a run of N calls on a
    new instance invokes [getAddress] N times. *)
Theorem empty_address_refetched txs (b : bool) (w : W) :
  (forall w0, fst (getAddress w0) = inr "") ->
  getAddress_count (calls (snd (sequentialCalls txs (fresh b w))))
  = List.length txs.
Proof.
  intros Hsg.
  destruct (sequentialCalls_empty_address txs (fresh b w) Hsg eq_refl) as [H _].
  exact H.
Qed.

(** C10 (amended). On a call that finds no cached address, the address that
    [getAddress] resolves to is written to the instance before the envelope
    is decoded: the rest of the call runs from the state that holds it.
    Whatever the outcome of that call, failures included, and whatever the
    address, it is still cached when the call ends; when the address is a
    non-empty string no later call invokes [getAddress]. *)
Theorem fetched_address_survives_failure txData txs s (a : string) (w : W) :
  truthy (fromAddress (this s)) = false ->
  getAddress (world s) = (inr a, w) ->
  Handle txData s = signAndWrap txData (fetched s a w) /\
  fromAddress (this (snd (Handle txData s))) = Some a /\
  (a <> "" ->
   getAddress_count (calls (snd (sequentialCalls txs (snd (Handle txData s)))))
   = getAddress_count (calls (snd (Handle txData s)))).
Proof.
  intros T G. rewrite (Handle_fetched txData s _ _ T G).
  pose proof (signAndWrap_this txData (fetched s a w)) as Hthis.
  split; [reflexivity|]. split; [rewrite Hthis; reflexivity|].
  intros Ha.
  apply sequentialCalls_cached. rewrite Hthis. apply truthy_Some. exact Ha.
Qed.

End Properties.

(** ** Further properties of [Handle] and [getHashedValues] *)

Section Further.

Context {E W : Type} {Ext : Externals E} {Sg : Signer E W}.
Implicit Types (s : state W) (txData : bytes) (txs : list bytes).

(** *** The three ways through the address guard *)

Lemma fetchFromAddress_cases s :
  (truthy (fromAddress (this s)) = true /\
   fetchFromAddress s = (inr tt, s)) \/
  (truthy (fromAddress (this s)) = false /\
   exists a w, getAddress (world s) = (inr a, w) /\
               fetchFromAddress s = (inr tt, fetched s a w)) \/
  (truthy (fromAddress (this s)) = false /\
   exists e w, getAddress (world s) = (inl e, w) /\
               fetchFromAddress s = (inl e, after s [CallGetAddress] w)).
Proof.
  destruct (truthy (fromAddress (this s))) eqn:T.
  - left. split; [reflexivity | apply fetchFromAddress_cached; exact T].
  - right. rewrite (fetchFromAddress_fetch s T).
    destruct (getAddress (world s)) as [[e | a] w].
    + right. split; [reflexivity|]. exists e, w. split; reflexivity.
    + left. split; [reflexivity|]. exists a, w. split; reflexivity.
Qed.

Lemma signAndWrap_calls txData s1 :
  exists cs, calls (snd (signAndWrap txData s1)) = calls s1 ++ cs /\
             signing_calls cs.
Proof.
  unfold signAndWrap, signing_calls.
  destruct (getHashedValues (this s1) txData) as [e | hash].
  { exists []. rewrite app_nil_r. split; [reflexivity | left; reflexivity]. }
  destruct (signAsync hash (world s1)) as [[e | sig] w].
  { exists [CallSignAsync hash]. split; [reflexivity | right; left; eauto]. }
  destruct (arrayify hash) as [e | hashBytes].
  { exists [CallSignAsync hash]. split; [reflexivity | right; left; eauto]. }
  destruct (arrayify (hashMessage hashBytes)) as [e | digest].
  { exists [CallSignAsync hash]. split; [reflexivity | right; left; eauto]. }
  cbv zeta.
  destruct (recoverPublicKey digest _) as [e | pk];
    (eexists; split; [reflexivity | right; right; eauto]).
Qed.

Lemma newCalls_app s s' (cs : list call) :
  calls s' = calls s ++ cs -> newCalls s s' = cs.
Proof.
  intros H. unfold newCalls. rewrite H, skipn_app, skipn_all, Nat.sub_diag.
  reflexivity.
Qed.

(** *** Calls made by one [Handle] *)

Lemma Handle_calls_shape txData s :
  exists cs,
    calls (snd (Handle txData s))
    = calls s
      ++ (if truthy (fromAddress (this s)) then [] else [CallGetAddress])
      ++ cs /\
    signing_calls cs.
Proof.
  rewrite Handle_eq.
  destruct (fetchFromAddress_cases s)
    as [[T G] | [[T (a & w & Ha & G)] | [T (e & w & He & G)]]];
    rewrite G, T.
  - destruct (signAndWrap_calls txData s) as (cs & H & S).
    exists cs. split; [exact H | exact S].
  - destruct (signAndWrap_calls txData (fetched s a w)) as (cs & H & S).
    exists cs. split; [| exact S]. rewrite H. cbn [calls fetched].
    rewrite <- app_assoc. reflexivity.
  - exists []. split; [reflexivity | left; reflexivity].
Qed.

(** X3. Whatever its outcome, one call of [Handle] keeps the calls made so
    far and adds to them the address fetch exactly when the cached address
    is falsy, then at most one [signAsync], then at most one
    [recoverPublicKey], which never comes without the [signAsync] before
    it. *)
Theorem Handle_calls txData s :
  exists cs,
    calls (snd (Handle txData s))
    = calls s ++ newCalls s (snd (Handle txData s)) /\
    newCalls s (snd (Handle txData s))
    = (if truthy (fromAddress (this s)) then [] else [CallGetAddress]) ++ cs /\
    signing_calls cs.
Proof.
  destruct (Handle_calls_shape txData s) as (cs & H & S).
  exists cs. rewrite (newCalls_app s _ _ H). repeat split; assumption.
Qed.

Lemma Handle_getAddress_count txData s :
  getAddress_count (calls (snd (Handle txData s)))
  = getAddress_count (calls s)
    + (if truthy (fromAddress (this s)) then 0 else 1).
Proof.
  destruct (Handle_calls_shape txData s) as (cs & H & S). rewrite H.
  rewrite !getAddress_count_app.
  assert (Hcs : getAddress_count cs = 0).
  { destruct S as [-> | [(h & ->) | (h & d & x & ->)]]; reflexivity. }
  rewrite Hcs. destruct (truthy (fromAddress (this s))); cbn; lia.
Qed.

(** X6. For every signer and every starting state, a run of N calls invokes
    [getAddress] at most N times: each call fetches once when it finds the
    cached address falsy and not at all otherwise. *)
Theorem getAddress_at_most_once_per_call txs : forall s,
  getAddress_count (calls (snd (sequentialCalls txs s)))
  <= getAddress_count (calls s) + List.length txs.
Proof.
  induction txs as [| txData txs IH]; intros s.
  - cbn. lia.
  - rewrite sequentialCalls_cons.
    specialize (IH (snd (Handle txData s))).
    rewrite Handle_getAddress_count in IH.
    destruct (truthy (fromAddress (this s))); cbn [List.length]; lia.
Qed.

(** *** What [Handle] writes *)

Lemma Handle_this txData s :
  this (snd (Handle txData s)) = this s \/
  truthy (fromAddress (this s)) = false /\
  exists a w, getAddress (world s) = (inr a, w) /\
              this (snd (Handle txData s))
              = {| fromAddress := Some a;
                   applyEthChainName := applyEthChainName (this s) |}.
Proof.
  rewrite Handle_eq.
  destruct (fetchFromAddress_cases s)
    as [[T G] | [[T (a & w & Ha & G)] | [T (e & w & He & G)]]];
    rewrite G.
  - left. apply signAndWrap_this.
  - right. split; [exact T|]. exists a, w. split; [exact Ha|].
    rewrite signAndWrap_this. reflexivity.
  - left. reflexivity.
Qed.

(** X5. The only write of [Handle] is the one of the guard: after a call the
    flag [applyEthChainName] is what it was, and [fromAddress] is either
    what it was or, when it was falsy, the string that [getAddress] resolved
    to in this call.  Over any run of calls the flag never changes. *)
Theorem Handle_writes_only_fromAddress txData txs s :
  applyEthChainName (this (snd (Handle txData s))) = applyEthChainName (this s) /\
  (fromAddress (this (snd (Handle txData s))) = fromAddress (this s) \/
   truthy (fromAddress (this s)) = false /\
   exists a w, getAddress (world s) = (inr a, w) /\
               fromAddress (this (snd (Handle txData s))) = Some a) /\
  applyEthChainName (this (snd (sequentialCalls txs s)))
  = applyEthChainName (this s).
Proof.
  assert (Hflag : forall d s0,
            applyEthChainName (this (snd (Handle d s0)))
            = applyEthChainName (this s0)).
  { intros d s0.
    destruct (Handle_this d s0) as [-> | (_ & a & w & _ & ->)]; reflexivity. }
  split; [apply Hflag|]. split.
  - destruct (Handle_this txData s) as [-> | (T & a & w & Ha & ->)].
    + left. reflexivity.
    + right. split; [exact T|]. exists a, w. split; [exact Ha | reflexivity].
  - revert s. induction txs as [| d txs IH]; intros s; [reflexivity|].
    rewrite sequentialCalls_cons, IH. apply Hflag.
Qed.

(** X4. An instance that holds a non-empty address, fetched or assigned, is
    left as it is by any run of calls, whatever their outcomes, and none of
    them invokes [getAddress]. *)
Theorem cached_address_is_stable txs s :
  truthy (fromAddress (this s)) = true ->
  this (snd (sequentialCalls txs s)) = this s /\
  getAddress_count (calls (snd (sequentialCalls txs s)))
  = getAddress_count (calls s).
Proof. intros T. apply sequentialCalls_cached. exact T. Qed.

(** X7. When the guard has to fetch and [getAddress] rejects, the call fails
    with that error whatever the envelope is: nothing is decoded, nothing is
    cached, and the signer is not asked for a signature. *)
Theorem getAddress_rejection_ends_call txData s (e : E) (w : W) :
  truthy (fromAddress (this s)) = false ->
  getAddress (world s) = (inl e, w) ->
  fst (Handle txData s) = inl e /\
  this (snd (Handle txData s)) = this s /\
  world (snd (Handle txData s)) = w /\
  newCalls s (snd (Handle txData s)) = [CallGetAddress].
Proof.
  intros T G. rewrite (Handle_fetch_rejected txData s e w T G).
  repeat split. apply newCalls_app. reflexivity.
Qed.

(** *** When [Handle] returns and when it throws *)

(** X1. When the guard leaves the instance in [s1] and every callee after it
    returns, [Handle] returns: its value is the serialization of the
    SignedTx made of the input bytes, the whole signature, the bytes of the
    recovered key, and the chain name "eth" or none according to the flag. *)
Theorem Handle_returns txData s s1 hash sig w hashBytes digest pk :
  fetchFromAddress s = (inr tt, s1) ->
  getHashedValues (this s1) txData = inr hash ->
  signAsync hash (world s1) = (inr sig, w) ->
  arrayify hash = inr hashBytes ->
  arrayify (hashMessage hashBytes) = inr digest ->
  recoverPublicKey digest ("0x" ++ bytesToHex (slice1 sig))%string = inr pk ->
  fst (Handle txData s)
  = inr (SignedTx_serializeBinary
           {| inner := txData; signature := sig; publicKey := hexToBytes pk;
              chainName := if applyEthChainName (this s) then "eth" else "" |}) /\
  world (snd (Handle txData s)) = w.
Proof.
  intros G Hh Hs Ha Hd Hr.
  rewrite Handle_eq, G.
  rewrite (signAndWrap_ok_intro txData s1 _ _ _ _ _ _ Hh Hs Ha Hd Hr).
  pose proof (fetchFromAddress_applyEthChainName s) as Hb.
  rewrite G in Hb. cbn [snd] in Hb.
  unfold buildSignedTx. rewrite Hb. split; reflexivity.
Qed.

Lemma signAndWrap_thrown txData s1 (e : E) :
  fst (signAndWrap txData s1) = inl e <-> step_thrown txData s1 e.
Proof.
  split.
  - unfold signAndWrap.
    destruct (getHashedValues (this s1) txData) as [e0 | hash] eqn:Hh.
    { cbn. intros [= ->]. rewrite getHashedValues_decodeFields in Hh.
      destruct (decodeFields txData) as [e0 | [toAddress sequence]] eqn:D.
      - injection Hh as ->. apply ByDecoder. exact D.
      - eapply BySoliditySha3; [exact D | exact Hh]. }
    destruct (signAsync hash (world s1)) as [[e0 | sig] w] eqn:Hs.
    { cbn. intros [= ->]. eapply BySignAsync; eassumption. }
    destruct (arrayify hash) as [e0 | hashBytes] eqn:Ha.
    { cbn. intros [= ->]. eapply ByArrayifyHash; eassumption. }
    destruct (arrayify (hashMessage hashBytes)) as [e0 | digest] eqn:Hd.
    { cbn. intros [= ->]. eapply ByArrayifyMessage; eassumption. }
    cbv zeta.
    destruct (recoverPublicKey digest _) as [e0 | pk] eqn:Hr.
    { cbn. intros [= ->]. eapply ByRecoverPublicKey; eassumption. }
    cbn. discriminate.
  - unfold signAndWrap.
    intros [D | toAddress sequence D Hh | hash w Hh Hs | hash sig w Hh Hs Ha
            | hash sig w hashBytes Hh Hs Ha Hd
            | hash sig w hashBytes digest Hh Hs Ha Hd Hr].
    + rewrite (getHashedValues_decode_error (this s1) txData e D). reflexivity.
    + rewrite getHashedValues_decodeFields, D, Hh. reflexivity.
    + rewrite Hh, Hs. reflexivity.
    + rewrite Hh, Hs, Ha. reflexivity.
    + rewrite Hh, Hs, Ha, Hd. reflexivity.
    + rewrite Hh, Hs, Ha, Hd. cbv zeta. rewrite Hr. reflexivity.
Qed.

(** X2. [Handle] throws nothing of its own and swallows nothing: it fails
    with [e] exactly when [e] is the error of the first callee that fails,
    be it [getAddress], a decoder, [soliditySha3], [signAsync], one of the
    [arrayify] conversions or [recoverPublicKey]. *)
Theorem Handle_throws_iff txData s (e : E) :
  fst (Handle txData s) = inl e <-> thrown txData s e.
Proof.
  rewrite Handle_eq. split.
  - destruct (fetchFromAddress_cases s)
      as [[T G] | [[T (a & w & Ha & G)] | [T (e0 & w & He & G)]]];
      rewrite G.
    + intros H. eapply ByStep; [exact G | apply signAndWrap_thrown; exact H].
    + intros H. eapply ByStep; [exact G | apply signAndWrap_thrown; exact H].
    + cbn. intros [= ->]. eapply ByGetAddress; eassumption.
  - intros [w T G | s1 G S].
    + rewrite (fetchFromAddress_fetch s T), G. reflexivity.
    + rewrite G. apply signAndWrap_thrown. exact S.
Qed.

(** *** What is signed *)

Lemma fetchFromAddress_defined s s1 :
  fetchFromAddress s = (inr tt, s1) ->
  exists a, fromAddress (this s1) = Some a.
Proof.
  intros G.
  destruct (fetchFromAddress_cases s)
    as [[T G'] | [[T (a & w & Ha & G')] | [T (e & w & He & G')]]];
    rewrite G' in G; [| | discriminate].
  - injection G as <-. destruct (fromAddress (this s)) as [a |] eqn:F.
    + exists a. reflexivity.
    + cbn in T. discriminate.
  - injection G as <-. exists a. reflexivity.
Qed.

(** X9. Whatever message [Handle] asks the signer to sign is the
    [soliditySha3] hash of the four values of this very envelope, with a
    sender address that is a string, never [undefined]: the address held by
    the instance when the call ends. *)
Theorem signed_message_is_envelope_hash txData s (hash : string) :
  In (CallSignAsync hash) (newCalls s (snd (Handle txData s))) ->
  exists a toAddress sequence,
    fromAddress (this (snd (Handle txData s))) = Some a /\
    decodeFields txData = inr (toAddress, sequence) /\
    soliditySha3 (hashValues (Some a) toAddress sequence txData) = inr hash.
Proof.
  rewrite Handle_eq.
  destruct (fetchFromAddress s) as [[e | []] s1] eqn:G.
  - destruct (fetchFromAddress_cases s)
      as [[T G'] | [[T (a & w & Ha & G')] | [T (e0 & w & He & G')]]];
      rewrite G' in G; try discriminate.
    injection G as <- <-. cbn [snd].
    rewrite (newCalls_app s (after s [CallGetAddress] w) [CallGetAddress] eq_refl).
    intros [H | []]. discriminate H.
  - destruct (fetchFromAddress_defined s s1 G) as (a & Fa).
    assert (Hpre : exists pre, calls s1 = calls s ++ pre /\
                               ~ In (CallSignAsync hash) pre).
    { destruct (fetchFromAddress_cases s)
        as [[T G'] | [[T (a0 & w & Ha & G')] | [T (e0 & w & He & G')]]];
        rewrite G' in G; try discriminate; injection G as <-.
      - exists []. rewrite app_nil_r. split; [reflexivity | intros []].
      - exists [CallGetAddress]. split; [reflexivity|].
        intros [H | []]. discriminate H. }
    destruct Hpre as (pre & Hpre & Hnot).
    rewrite signAndWrap_this.
    unfold signAndWrap. rewrite getHashedValues_decodeFields, Fa.
    destruct (decodeFields txData) as [e | [toAddress sequence]] eqn:D.
    { cbn [snd]. rewrite (newCalls_app s s1 pre Hpre). intros H. contradiction. }
    destruct (soliditySha3 _) as [e | hash0] eqn:Hh.
    { cbn [snd]. rewrite (newCalls_app s s1 pre Hpre). intros H. contradiction. }
    intros Hin.
    assert (Hsame : hash0 = hash).
    { revert Hin.
      destruct (signAsync hash0 (world s1)) as [[e | sig] w];
        [| destruct (arrayify hash0) as [e | hashBytes];
           [| destruct (arrayify (hashMessage hashBytes)) as [e | digest];
              [| cbv zeta; destruct (recoverPublicKey digest _) as [e | pk]]]];
        cbn [snd];
        (erewrite newCalls_app
           by (unfold after; cbn [calls]; rewrite Hpre, <- app_assoc; reflexivity));
        intros Hin; apply in_app_or in Hin;
        destruct Hin as [Hin | Hin]; try contradiction;
        cbn in Hin; intuition congruence. }
    subst hash0. exists a, toAddress, sequence. repeat split; assumption.
Qed.

(** *** The sequence number in the hash input *)

Lemma Number_toString_inj (n m : N) :
  (n < 2 ^ 53)%N -> (m < 2 ^ 53)%N ->
  Number_toString n = Number_toString m -> n = m.
Proof.
  intros Hn Hm H. rewrite (Number_toString_exact n Hn), (Number_toString_exact m Hm) in H.
  apply Unsigned.to_uint_inj.
  pose proof (NilEmpty.usu (N.to_uint n)) as Un.
  pose proof (NilEmpty.usu (N.to_uint m)) as Um.
  rewrite H in Un. congruence.
Qed.

(** X8. Two envelopes whose sequence numbers differ and are both below 2^53
    never get the same hash input, whatever their other fields: the decimal
    text of the "uint64" entry tells the numbers apart.  (From 2^53 up two
    counters can share a text, as 2^53 and 2^53 + 1 do.) *)
Theorem hashValues_tell_sequences_apart
    (from from' : option string) (toAddress toAddress' : string)
    (n m : N) txData txData' :
  (n < 2 ^ 53)%N ->
  (m < 2 ^ 53)%N ->
  n <> m ->
  hashValues from toAddress (Number_toString n) txData
  <> hashValues from' toAddress' (Number_toString m) txData'.
Proof.
  intros Hn Hm Hne Heq. unfold hashValues in Heq.
  injection Heq as _ _ Hseq _. apply Hne, (Number_toString_inj n m Hn Hm).
  exact Hseq.
Qed.

End Further.

(** ** Concrete runs *)

Section ConcreteRuns.

Import TestDoubles.

#[local] Existing Instance externals.

Example Number_toString_7 : Number_toString 7 = "7".
Proof. reflexivity. Qed.

(** The envelope of sequence 7 to B2...B2, hashed for the sender ...A1. *)
Lemma getHashedValues_hash_input_witness :
  getHashedValues
    {| fromAddress := Some senderAddress; applyEthChainName := false |} envelope
  = soliditySha3
      [ HashValue "address" (Some "0x00000000000000000000000000000000000000A1");
        HashValue "address" (Some "0xB2B2B2B2B2B2B2B2B2B2B2B2B2B2B2B2B2B2B2B2");
        HashValue "uint64" (Some "7");
        HashValue "bytes" (Some "07B2B2B2B2B2B2B2B2B2B2B2B2B2B2B2B2B2B2B2B2") ].
Proof.
  exact (proj2
           (getHashedValues_hash_input
              {| fromAddress := Some senderAddress; applyEthChainName := false |}
              envelope (repeat xb2 20, 7%N) (repeat xb2 20)
              (Some (repeat xb2 20)) (repeat xb2 20)
              eq_refl eq_refl eq_refl eq_refl)
           eq_refl).
Defined.

(** From 2^53 up the text is not the counter in decimal digits: 2^63 is a
    double and prints with three zeros at the end, 2^53 + 1 is not a double
    and prints as 2^53. *)
Lemma large_sequence_is_rounded :
  Number_toString (2 ^ 63) = "9223372036854776000" /\
  NilEmpty.string_of_uint (N.to_uint (2 ^ 63)) = "9223372036854775808" /\
  Number_toString (2 ^ 53 + 1) = "9007199254740992" /\
  Number_toString (2 ^ 53) = "9007199254740992" /\
  decodeFields (Ext := externals64) envelope63
  = inr ("0xB2B2B2B2B2B2B2B2B2B2B2B2B2B2B2B2B2B2B2B2", "9223372036854776000") /\
  ~ hash_input_has_exact_sequence (Ext := externals64).
Proof.
  split; [vm_compute; reflexivity|]. split; [vm_compute; reflexivity|].
  split; [vm_compute; reflexivity|]. split; [vm_compute; reflexivity|].
  split; [vm_compute; reflexivity|].
  intros H.
  specialize (H {| fromAddress := Some senderAddress; applyEthChainName := false |}
                envelope63 (repeat xb2 20, (2 ^ 63)%N) (repeat xb2 20)
                (Some (repeat xb2 20)) (repeat xb2 20)
                eq_refl eq_refl eq_refl eq_refl).
  vm_compute in H. discriminate H.
Qed.

Lemma Handle_inner_preserved_witness :
  exists (out : bytes) (s' : state nat) (signedTx : SignedTx),
    Handle (Sg := wallet) envelope (fresh false 0) = (inr out, s') /\
    out = SignedTx_serializeBinary signedTx /\
    inner signedTx = envelope.
Proof.
  eexists. eexists.
  assert (H : Handle (Sg := wallet) envelope (fresh false 0) = (inr _, _))
    by (vm_compute; reflexivity).
  destruct (Handle_inner_preserved (Sg := wallet) envelope (fresh false 0) _ _ H)
    as (signedTx & H1 & H2).
  exists signedTx. split; [exact H | split; assumption].
Defined.

Lemma Handle_sign_raw_recover_prefixed_witness :
  exists (out : bytes) (s' : state nat) (hash : string) (digest : bytes),
    Handle (Sg := wallet) envelope (fresh true 0) = (inr out, s') /\
    getHashedValues
      {| fromAddress := Some senderAddress; applyEthChainName := true |} envelope
    = inr hash /\
    calls s' =
    [CallGetAddress; CallSignAsync hash;
     CallRecoverPublicKey digest ("0x" ++ hex (repeat x11 64))%string].
Proof.
  eexists. eexists.
  assert (H : Handle (Sg := wallet) envelope (fresh true 0) = (inr _, _))
    by (vm_compute; reflexivity).
  destruct (Handle_sign_raw_recover_prefixed (Sg := wallet) envelope
              (fresh true 0) _ _ H)
    as (s1 & hash & sig & hashBytes & digest & pk & signedTx
        & G & Hh & Hs & Ha & Hd & Hr & Hc & _).
  injection G as <-. injection Hs as <-.
  exists hash, digest. split; [exact H | split; [exact Hh | exact Hc]].
Defined.

Lemma chain_name_gating_witness :
  exists signedTx signedTx' : SignedTx,
    fst (Handle (Sg := wallet) envelope (fresh false 0))
    = inr (SignedTx_serializeBinary signedTx) /\
    chainName signedTx = "" /\
    fst (Handle (Sg := wallet) envelope (fresh true 0))
    = inr (SignedTx_serializeBinary signedTx') /\
    chainName signedTx' = "eth" /\
    inner signedTx' = inner signedTx /\
    signature signedTx' = signature signedTx /\
    publicKey signedTx' = publicKey signedTx.
Proof.
  assert (H : Handle (Sg := wallet) envelope
                (with_applyEthChainName false (fresh false 0)) = (inr _, _))
    by (vm_compute; reflexivity).
  destruct (chain_name_gating (Sg := wallet) envelope (fresh false 0) false _ _ H)
    as (signedTx & signedTx' & H1 & H2 & H3 & H4 & H5 & H6 & H7).
  exists signedTx, signedTx'.
  split; [rewrite <- H1; vm_compute; reflexivity|].
  split; [exact H2|].
  split; [change (fresh true 0)
            with (with_applyEthChainName (negb false) (fresh false 0));
          rewrite H3; reflexivity|].
  repeat split; assumption.
Defined.

(** A decoder, a signer and a recovery that fail, one after the other. *)
Lemma failure_propagates_witness :
  fst (Handle (Sg := wallet) truncated (fresh false 0))
  = inl "Invalid local address, expected 20 bytes" /\
  fst (Handle (Sg := refusing) envelope (fresh false 0))
  = inl "user denied message signature" /\
  fst (Handle (Sg := garbled) envelope (fresh false 0))
  = inl "invalid signature length".
Proof.
  split; [| split].
  - erewrite (failure_propagates (Sg := wallet) truncated (fresh false 0));
      [reflexivity | reflexivity | apply DecodeError; reflexivity].
  - erewrite (failure_propagates (Sg := refusing) envelope (fresh false 0));
      [reflexivity | reflexivity | eapply SigningError; reflexivity].
  - erewrite (failure_propagates (Sg := garbled) envelope (fresh false 0));
      [reflexivity | reflexivity | eapply RecoveryError; reflexivity].
Defined.

(** The empty envelope on a new instance: the decoders fail on the missing
    destination address, and the signer has been asked for its address. *)
Lemma decode_failure_fetches_address :
  decodeFields [] = inl typeError /\
  Handle (Sg := wallet) [] (fresh false 0)
  = (inl typeError,
     {| this := {| fromAddress := Some senderAddress;
                   applyEthChainName := false |};
        world := 1; calls := [CallGetAddress] |}) /\
  ~ decode_failure_without_signer_call (Sg := wallet).
Proof.
  split; [reflexivity|]. split; [reflexivity|].
  intros H. destruct (H [] (fresh false 0) typeError eq_refl) as [_ Hc].
  vm_compute in Hc. discriminate Hc.
Qed.

Lemma decode_failure_no_signature_witness :
  decodeFields [] = inl typeError /\
  exists (e' : string) (s' : state nat),
    Handle (Sg := wallet) [] (fresh false 0) = (inl e', s') /\
    (calls s' = calls (fresh false 0) \/
     truthy (fromAddress (this (fresh false 0))) = false /\
     calls s' = calls (fresh false 0) ++ [CallGetAddress]) /\
    (truthy (fromAddress (this (fresh false 0))) = true ->
     e' = typeError /\ s' = fresh false 0) /\
    (forall a w, getAddress (Signer := wallet) (world (fresh false 0)) = (inr a, w) ->
                 e' = typeError).
Proof.
  split; [reflexivity|].
  apply (decode_failure_no_signature (Sg := wallet) [] (fresh false 0) typeError).
  reflexivity.
Defined.

(** Two calls on a new instance in front of a signer whose [getAddress]
    rejects, and in front of one whose [getAddress] resolves to the empty
    string: two fetches each. *)
Lemma address_fetched_twice :
  getAddress_count
    (calls (snd (sequentialCalls (Sg := unreachable) [envelope; envelope]
                   (fresh false 0)))) = 2 /\
  getAddress_count
    (calls (snd (sequentialCalls (Sg := blank) [envelope; envelope]
                   (fresh false 0)))) = 2 /\
  ~ address_fetched_at_most_once (Sg := unreachable) /\
  ~ address_fetched_at_most_once (Sg := blank).
Proof.
  split; [reflexivity|]. split; [reflexivity|]. split.
  - intros H.
    assert (Hne : [envelope; envelope] <> []) by discriminate.
    specialize (H [envelope; envelope] false 0 Hne). vm_compute in H. lia.
  - intros H.
    assert (Hne : [envelope; envelope] <> []) by discriminate.
    specialize (H [envelope; envelope] false 0 Hne). vm_compute in H. lia.
Qed.

Lemma address_fetched_once_witness :
  getAddress_count
    (calls (snd (sequentialCalls (Sg := wallet) [envelope; truncated; envelope]
                   (fresh true 0)))) = 1 /\
  this (snd (sequentialCalls (Sg := wallet) [envelope; truncated; envelope]
               (fresh true 0)))
  = {| fromAddress := Some senderAddress; applyEthChainName := true |}.
Proof.
  apply (address_fetched_once (Sg := wallet) [envelope; truncated; envelope]
           true 0 1 senderAddress).
  - reflexivity.
  - apply String.eqb_neq. reflexivity.
  - discriminate.
Defined.

Lemma empty_address_refetched_witness :
  getAddress_count
    (calls (snd (sequentialCalls (Sg := blank) [envelope; []; truncated]
                   (fresh false 0)))) = 3.
Proof.
  apply (empty_address_refetched (Sg := blank) [envelope; []; truncated] false 0).
  intros w0. reflexivity.
Defined.

(** The signer resolves to the empty string and the first call fails in
    decoding: the second call asks the signer for its address again. *)
Lemma empty_address_fetched_again :
  fst (Handle (Sg := blank) truncated (fresh false 0))
  = inl "Invalid local address, expected 20 bytes" /\
  fromAddress (this (snd (Handle (Sg := blank) truncated (fresh false 0))))
  = Some "" /\
  getAddress_count
    (calls (snd (sequentialCalls (Sg := blank) [truncated; envelope]
                   (fresh false 0)))) = 2 /\
  ~ fetched_address_never_fetched_again (Sg := blank).
Proof.
  split; [reflexivity|]. split; [reflexivity|]. split; [reflexivity|].
  intros H.
  destruct (H truncated [envelope] (fresh false 0) "" 1 eq_refl eq_refl)
    as [_ Hc].
  vm_compute in Hc. discriminate Hc.
Qed.

(** The first call fails in decoding; the address it fetched is kept and
    the two calls that follow do not fetch it. *)
Lemma fetched_address_survives_failure_witness :
  fst (Handle (Sg := wallet) truncated (fresh false 0))
  = inl "Invalid local address, expected 20 bytes" /\
  fromAddress (this (snd (Handle (Sg := wallet) truncated (fresh false 0))))
  = Some senderAddress /\
  getAddress_count
    (calls (snd (sequentialCalls (Sg := wallet) [envelope; envelope]
                   (snd (Handle (Sg := wallet) truncated (fresh false 0))))))
  = getAddress_count
      (calls (snd (Handle (Sg := wallet) truncated (fresh false 0)))) /\
  fromAddress (this (snd (Handle (Sg := blank) truncated (fresh false 0))))
  = Some "".
Proof.
  split; [reflexivity|].
  destruct (fetched_address_survives_failure (Sg := wallet) truncated
              [envelope; envelope] (fresh false 0) senderAddress 1
              eq_refl eq_refl) as (_ & Hcached & Hlater).
  destruct (fetched_address_survives_failure (Sg := blank) truncated
              [] (fresh false 0) "" 1 eq_refl eq_refl) as (_ & Hblank & _).
  split; [exact Hcached|]. split; [| exact Hblank].
  apply Hlater. apply String.eqb_neq. reflexivity.
Defined.

(** *** Runs for the further properties *)

(** The envelope signed by the working signer, with the chain name on. *)
Lemma Handle_returns_witness :
  fst (Handle (Sg := wallet) envelope (fresh true 0))
  = inr (SignedTx_serializeBinary
           {| inner := envelope; signature := sig65;
              publicKey := hexToBytes "0x04C0FFEE"; chainName := "eth" |}) /\
  world (snd (Handle (Sg := wallet) envelope (fresh true 0))) = 1.
Proof.
  eapply (Handle_returns (Sg := wallet) envelope (fresh true 0)
            _ _ sig65 1 _ _ "0x04C0FFEE"); reflexivity.
Defined.

(** A signer that cannot be reached: its error is the outcome of the call. *)
Lemma Handle_throws_iff_witness :
  fst (Handle (Sg := unreachable) envelope (fresh false 0))
  = inl "getAddress: network error".
Proof.
  apply (proj2 (Handle_throws_iff (Sg := unreachable) envelope (fresh false 0)
                  "getAddress: network error")).
  apply ByGetAddress with (w := 1); reflexivity.
Defined.

(** An instance whose address was assigned, in front of a signer that
    cannot give its address: the address is never asked for. *)
Lemma cached_address_is_stable_witness :
  let s := {| this := {| fromAddress := Some senderAddress;
                         applyEthChainName := false |};
              world := 0; calls := [] |} in
  this (snd (sequentialCalls (Sg := unreachable) [envelope; truncated] s))
  = this s /\
  getAddress_count
    (calls (snd (sequentialCalls (Sg := unreachable) [envelope; truncated] s)))
  = 0.
Proof.
  cbv zeta.
  apply (cached_address_is_stable (Sg := unreachable) [envelope; truncated]
           {| this := {| fromAddress := Some senderAddress;
                         applyEthChainName := false |};
              world := 0; calls := [] |}).
  reflexivity.
Defined.

(** The envelope that does not decode, behind a signer that cannot be
    reached: the error is the signer's, not the decoder's. *)
Lemma getAddress_rejection_ends_call_witness :
  fst (Handle (Sg := unreachable) truncated (fresh false 0))
  = inl "getAddress: network error" /\
  this (snd (Handle (Sg := unreachable) truncated (fresh false 0)))
  = this (fresh false 0) /\
  world (snd (Handle (Sg := unreachable) truncated (fresh false 0))) = 1 /\
  newCalls (fresh false 0)
    (snd (Handle (Sg := unreachable) truncated (fresh false 0)))
  = [CallGetAddress].
Proof.
  apply (getAddress_rejection_ends_call (Sg := unreachable) truncated
           (fresh false 0) "getAddress: network error" 1); reflexivity.
Defined.

Lemma signed_message_is_envelope_hash_witness :
  exists hash : string,
    In (CallSignAsync hash)
       (newCalls (fresh false 0)
          (snd (Handle (Sg := wallet) envelope (fresh false 0)))) /\
    exists a toAddress sequence,
      fromAddress (this (snd (Handle (Sg := wallet) envelope (fresh false 0))))
      = Some a /\
      decodeFields envelope = inr (toAddress, sequence) /\
      soliditySha3 (hashValues (Some a) toAddress sequence envelope) = inr hash.
Proof.
  eexists.
  assert (H : In (CallSignAsync _)
                (newCalls (fresh false 0)
                   (snd (Handle (Sg := wallet) envelope (fresh false 0)))))
    by (vm_compute; right; left; reflexivity).
  split; [exact H|].
  exact (signed_message_is_envelope_hash (Sg := wallet) envelope
           (fresh false 0) _ H).
Defined.

(** Sequence 7 and sequence 8, all else equal. *)
Lemma hashValues_tell_sequences_apart_witness :
  hashValues (Some senderAddress) "0xB2" "7" envelope
  <> hashValues (Some senderAddress) "0xB2" "8" envelope.
Proof.
  apply (hashValues_tell_sequences_apart (Some senderAddress)
           (Some senderAddress) "0xB2" "0xB2" 7 8 envelope envelope).
  - reflexivity.
  - reflexivity.
  - apply N.eqb_neq. reflexivity.
Defined.

End ConcreteRuns.
